(** * query-matching-issues: the paginated issue search of [src/github.ts]

    A shallow embedding of [formatNameWithOwner] and [getMatchingIssues],
    with the GraphQL client taken as an explicit state-passing collaborator,
    followed by the properties of the pagination loop. *)

From Stdlib Require Import Ascii String List Arith Lia Bool.
Import ListNotations.
Open Scope string_scope.
Open Scope list_scope.

Set Implicit Arguments.
Set Warnings "-register-all".

(** ** Data model: the interfaces declared in github.ts *)

(** One element of [labels.nodes]: [{ name: string }]. *)
Record Label := { name : string }.

(** The [labels] member of an issue: [{ nodes: Array<{name: string}> }]. *)
Module Labels.
Record t := { nodes : list Label }.
End Labels.

(** [interface Issue]. *)
Record Issue := { title : string; url : string; labels : Labels.t }.

(** [interface NameWithOwner]. *)
Record NameWithOwner := { owner : string; repo : string }.

(** [search.pageInfo] of a query response. *)
Module PageInfo.
Record t := { endCursor : string; hasNextPage : bool }.
End PageInfo.

(** [search] of a query response. *)
Module Search.
Record t := { pageInfo : PageInfo.t; nodes : list Issue }.
End Search.

(** [interface QueryResponse]. *)
Record QueryResponse := { search : Search.t }.

(** [type GraphQlQueryResponseData = QueryResponse | null]. *)
Definition GraphQlQueryResponseData := option QueryResponse.

(** The ambient [github.context]; only its [repo] member is read. *)
Module Context.
Record t := { repo : NameWithOwner }.
End Context.

(** The variables object handed to [client.graphql]: [{ cursor, searchQuery }]. *)
Module RequestParameters.
Record t := { cursor : option string; searchQuery : string }.
End RequestParameters.

(** The GraphQL query template. *)
Definition query : string := "
query($searchQuery: String!, $cursor: String) {
  search(first: 100, query: $searchQuery, type: ISSUE, after: $cursor) {
    pageInfo {
      hasNextPage,
      endCursor
    }
    nodes {
      ... on Issue {
        title
        url
        labels(first: 100) {
          nodes {
            name
          }
        }
        createdAt
      }
    }
  }
}
".

(** [formatNameWithOwner({ owner, repo })] is the template [`${owner}/${repo}`]. *)
Definition formatNameWithOwner (nameWithOwner : NameWithOwner) : string :=
  (nameWithOwner.(owner) ++ "/" ++ nameWithOwner.(repo))%string.

(** The [queryText] constant of [getMatchingIssues]:
    [`repo:${formatNameWithOwner(context.repo)} ${searchQuery}`]. *)
Definition queryTextOf (context : Context.t) (searchQuery : string) : string :=
  ("repo:" ++ formatNameWithOwner context.(Context.repo)
     ++ " " ++ searchQuery)%string.

(** ** The remote collaborator

    [await client.graphql(...)] has three possible fates: the promise is
    fulfilled with a response (an object or null), it is rejected with an
    error, or it never settles.  The client may keep state of its own (the
    remote service), which is threaded explicitly as a [World]. *)

Section Program.

Context {Error World : Type}.

Inductive Settlement :=
| Fulfilled (results : GraphQlQueryResponseData)
| Rejected (reason : Error)
| Unsettled.

Record GitHubClient := {
  graphql : string -> RequestParameters.t -> World -> Settlement * World
}.

(** One remote call as the loop performed it. *)
Record Exchange := {
  document : string;
  request : RequestParameters.t;
  settlement : Settlement
}.

(** The mutable locals of [getMatchingIssues] ([cursor], [hasNextPage],
    [issues]), the state of the remote service and the calls made so far. *)
Record Config := {
  cursor : option string;
  hasNextPage : bool;
  issues : list Issue;
  world : World;
  log : list Exchange
}.

(** How an invocation ends: the promise resolves with the issues, rejects
    with the error of a remote call, stays suspended at an [await] that
    never resumes, or is still iterating when the fuel of the model is
    spent. *)
Inductive Completion :=
| Returned (result : list Issue)
| Threw (reason : Error)
| Suspended
| Iterating.

Record Run := { completion : Completion; final : Config }.

(** The two states of the pagination loop, read off the [hasNextPage] flag
    that the [while] tests. *)
Inductive PaginationState := FETCHING | DONE.

Definition stateOf (c : Config) : PaginationState :=
  if c.(hasNextPage) then FETCHING else DONE.

Variable getOctokit : string -> GitHubClient.
Variable context : Context.t.

(** [github.getOctokit] and [github.context] belong to the toolkit, not to
    github.ts: they are parameters of the development. *)

(** [while (hasNextPage) { ... }]; one unit of fuel per iteration.  The
    [core.debug] lines write to a diagnostic sink and take no part in the
    control flow; they are left out. *)
Fixpoint while (client : GitHubClient) (queryText : string)
         (fuel : nat) (c : Config) : Run :=
  if c.(hasNextPage) then
    match fuel with
    | O => {| completion := Iterating; final := c |}
    | S fuel' =>
        let variables :=
          {| RequestParameters.cursor := c.(cursor);
             RequestParameters.searchQuery := queryText |} in
        let (answer, world') := client.(graphql) query variables c.(world) in
        let log' :=
          (c.(log) ++ [{| document := query; request := variables;
                          settlement := answer |}])%list in
        match answer with
        | Fulfilled (Some results) =>
            while client queryText fuel'
              {| cursor :=
                   Some results.(search).(Search.pageInfo).(PageInfo.endCursor);
                 issues :=
                   (c.(issues)
                      ++ map (fun issue => issue)
                           results.(search).(Search.nodes))%list;
                 hasNextPage :=
                   results.(search).(Search.pageInfo).(PageInfo.hasNextPage);
                 world := world';
                 log := log' |}
        | Fulfilled None =>
            while client queryText fuel'
              {| cursor := c.(cursor);
                 issues := c.(issues);
                 hasNextPage := false;
                 world := world';
                 log := log' |}
        | Rejected reason =>
            {| completion := Threw reason;
               final := {| cursor := c.(cursor); issues := c.(issues);
                           hasNextPage := c.(hasNextPage);
                           world := world'; log := log' |} |}
        | Unsettled =>
            {| completion := Suspended;
               final := {| cursor := c.(cursor); issues := c.(issues);
                           hasNextPage := c.(hasNextPage);
                           world := world'; log := log' |} |}
        end
    end
  else {| completion := Returned c.(issues); final := c |}.

(** [getMatchingIssues(token, searchQuery)], run against a remote service
    in state [w]. *)
Definition getMatchingIssues (fuel : nat) (w : World)
           (token searchQuery : string) : Run :=
  let client := getOctokit token in
  let queryText := queryTextOf context searchQuery in
  while client queryText fuel
    {| cursor := None; hasNextPage := true; issues := [];
       world := w; log := [] |}.

End Program.

Arguments Settlement : clear implicits.
Arguments GitHubClient : clear implicits.
Arguments Exchange : clear implicits.
Arguments Config : clear implicits.
Arguments Completion : clear implicits.
Arguments Run : clear implicits.

(** ** Reading a run *)

Section Observations.

Context {Error World : Type}.

(** A call answered with a page. *)
Definition page (results : QueryResponse) : Settlement Error :=
  Fulfilled (Some results).

(** The pages among the answers, in the order of arrival. *)
Fixpoint pagesOf (answers : list (Settlement Error)) : list QueryResponse :=
  match answers with
  | [] => []
  | Fulfilled (Some results) :: rest => results :: pagesOf rest
  | _ :: rest => pagesOf rest
  end.

(** The pages a run received. *)
Definition received (r : Run Error World) : list QueryResponse :=
  pagesOf (map (@settlement Error) r.(final).(log)).

(** The number of remote calls a run made. *)
Definition calls (r : Run Error World) : nat := length r.(final).(log).

(** The issue lists of a sequence of pages, one after the other. *)
Definition issuesOf (pages : list QueryResponse) : list Issue :=
  concat (map (fun results => results.(search).(Search.nodes)) pages).

Definition moreAfter (results : QueryResponse) : bool :=
  results.(search).(Search.pageInfo).(PageInfo.hasNextPage).

(** A response after which the loop stops: null, or a last page. *)
Definition terminal (results : GraphQlQueryResponseData) : bool :=
  match results with
  | None => true
  | Some p => negb (moreAfter p)
  end.

(** The cursor the loop holds after an answer. *)
Definition advance (cur : option string) (answer : Settlement Error)
  : option string :=
  match answer with
  | Fulfilled (Some results) =>
      Some results.(search).(Search.pageInfo).(PageInfo.endCursor)
  | _ => cur
  end.

(** The calls that a given succession of answers gives rise to, starting
    with cursor [cur]. *)
Fixpoint transcript (queryText : string) (cur : option string)
         (answers : list (Settlement Error)) : list (Exchange Error) :=
  match answers with
  | [] => []
  | answer :: rest =>
      {| document := query;
         request := {| RequestParameters.cursor := cur;
                       RequestParameters.searchQuery := queryText |};
         settlement := answer |}
        :: transcript queryText (advance cur answer) rest
  end.

(** The same configuration with another call log. *)
Definition withLog (l : list (Exchange Error)) (c : Config Error World)
  : Config Error World :=
  {| cursor := c.(cursor); hasNextPage := c.(hasNextPage);
     issues := c.(issues); world := c.(world); log := l |}.

(** The same run with the calls [l] made before it. *)
Definition relog (l : list (Exchange Error)) (r : Run Error World)
  : Run Error World :=
  {| completion := r.(completion);
     final := withLog (l ++ r.(final).(log)) r.(final) |}.

(** An answer after which the loop calls again. *)
Definition continuing (answer : Settlement Error) : bool :=
  match answer with
  | Fulfilled (Some results) => moreAfter results
  | _ => false
  end.

(** The configuration in which [getMatchingIssues] enters its loop, and
    those it passes through, seen without the calls made before. *)
Definition entering (cur : option string) (more : bool) (acc : list Issue)
           (w : World) : Config Error World :=
  {| cursor := cur; hasNextPage := more; issues := acc; world := w;
     log := [] |}.

(** The request the loop sends when it holds cursor [cur]. *)
Definition requestFor (queryText : string) (cur : option string)
  : RequestParameters.t :=
  {| RequestParameters.cursor := cur;
     RequestParameters.searchQuery := queryText |}.

(** How the loop ends on an answer after which it does not call again,
    with [acc] the accumulator after that answer. *)
Definition verdict (acc : list Issue) (answer : Settlement Error)
  : Completion Error :=
  match answer with
  | Fulfilled _ => Returned acc
  | Rejected reason => Threw reason
  | Unsettled => Suspended
  end.

(** The [hasNextPage] flag after an answer. *)
Definition flagAfter (answer : Settlement Error) : bool :=
  match answer with
  | Fulfilled (Some results) => moreAfter results
  | Fulfilled None => false
  | _ => true
  end.

(** The position of the first terminal response of a sequence. *)
Fixpoint firstTerminal (responses : list GraphQlQueryResponseData) : nat :=
  match responses with
  | [] => 0
  | r :: rest => if terminal r then 0 else S (firstTerminal rest)
  end.

End Observations.

(** ** Test doubles for the remote service *)

(** A service that answers the successive calls from a script, whatever the
    request; once the script is used up the call never settles. *)
Definition scripted {Error : Type}
  : GitHubClient Error (list (Settlement Error)) :=
  {| graphql := fun _ _ script =>
       match script with
       | [] => (Unsettled, [])
       | answer :: rest => (answer, rest)
       end |}.

(** A stateless service that answers by the cursor it is given. *)
Definition paged {Error : Type}
           (book : option string -> Settlement Error)
  : GitHubClient Error unit :=
  {| graphql := fun _ variables w =>
       (book variables.(RequestParameters.cursor), w) |}.

(** [getMatchingIssues] against a scripted service. *)
Definition search_script {Error : Type} (context : Context.t)
           (fuel : nat) (script : list (Settlement Error))
           (token searchQuery : string)
  : Run Error (list (Settlement Error)) :=
  getMatchingIssues (fun _ => scripted) context fuel script token searchQuery.

(** ** Issues as the objects the caller sees

    The values in the returned array are the very objects of the response
    ([map((issue) => issue)] copies the array, not its elements), so their
    shape is the one of [interface Issue]. *)

Inductive JsValue :=
| JsNull
| JsBoolean (b : bool)
| JsString (s : string)
| JsArray (elements : list JsValue)
| JsObject (members : list (string * JsValue)).

Definition Label_object (l : Label) : JsValue :=
  JsObject [("name", JsString l.(name))].

Definition Labels_object (l : Labels.t) : JsValue :=
  JsObject [("nodes", JsArray (map Label_object l.(Labels.nodes)))].

Definition Issue_object (i : Issue) : JsValue :=
  JsObject
    [("title", JsString i.(title));
     ("url", JsString i.(url));
     ("labels", Labels_object i.(labels))].

(** The array of the given texts. *)
Definition namesArray (names : list string) : JsValue :=
  JsArray (map JsString names).

(** Property access [value[key]]. *)
Fixpoint member (key : string) (members : list (string * JsValue))
  : option JsValue :=
  match members with
  | [] => None
  | (k, v) :: rest => if String.eqb k key then Some v else member key rest
  end.

Definition property (key : string) (value : JsValue) : option JsValue :=
  match value with
  | JsObject members => member key members
  | _ => None
  end.

(** Equality of issues is decidable. *)
Definition Issue_eq_dec (a b : Issue) : {a = b} + {a <> b}.
Proof. repeat decide equality. Defined.

(** An array all of whose elements are strings. *)
Definition isTextSequence (value : JsValue) : bool :=
  match value with
  | JsArray elements =>
      forallb (fun e => match e with JsString _ => true | _ => false end)
              elements
  | _ => false
  end.

(** The label names of an issue, read through [labels.nodes[].name]. *)
Definition labelNames (i : Issue) : list string :=
  map name i.(labels).(Labels.nodes).

(** ** The invocation with its diagnostic output

    [getMatchingIssues] once more, this time with its two [core.debug]
    lines: the events of an invocation are the messages handed to
    [core.debug] and the remote calls, in the order they happen.
    [JSON.stringify(results, null, 2)] is a built-in and stays a parameter. *)

Section Diagnostics.

Context {Error World : Type}.

Inductive Event :=
| Debugged (message : string)
| Called (x : Exchange Error).

Variable stringify : GraphQlQueryResponseData -> string.

(** The loop with the event sink threaded through it. *)
Fixpoint while_traced (client : GitHubClient Error World) (queryText : string)
         (fuel : nat) (c : Config Error World) (events : list Event)
  : Run Error World * list Event :=
  if c.(hasNextPage) then
    match fuel with
    | O => ({| completion := Iterating; final := c |}, events)
    | S fuel' =>
        let variables :=
          {| RequestParameters.cursor := c.(cursor);
             RequestParameters.searchQuery := queryText |} in
        let (answer, world') := client.(graphql) query variables c.(world) in
        let x := {| document := query; request := variables;
                    settlement := answer |} in
        let log' := c.(log) ++ [x] in
        match answer with
        | Fulfilled results =>
            let events' :=
              events ++ [Called x;
                         Debugged ("Results: " ++ stringify results)%string] in
            match results with
            | Some results =>
                while_traced client queryText fuel'
                  {| cursor :=
                       Some results.(search).(Search.pageInfo).(PageInfo.endCursor);
                     issues :=
                       c.(issues)
                         ++ map (fun issue => issue)
                              results.(search).(Search.nodes);
                     hasNextPage :=
                       results.(search).(Search.pageInfo).(PageInfo.hasNextPage);
                     world := world';
                     log := log' |}
                  events'
            | None =>
                while_traced client queryText fuel'
                  {| cursor := c.(cursor);
                     issues := c.(issues);
                     hasNextPage := false;
                     world := world';
                     log := log' |}
                  events'
            end
        | Rejected reason =>
            ({| completion := Threw reason;
                final := {| cursor := c.(cursor); issues := c.(issues);
                            hasNextPage := c.(hasNextPage);
                            world := world'; log := log' |} |},
             events ++ [Called x])
        | Unsettled =>
            ({| completion := Suspended;
                final := {| cursor := c.(cursor); issues := c.(issues);
                            hasNextPage := c.(hasNextPage);
                            world := world'; log := log' |} |},
             events ++ [Called x])
        end
    end
  else ({| completion := Returned c.(issues); final := c |}, events).

Definition getMatchingIssues_traced
           (getOctokit : string -> GitHubClient Error World)
           (context : Context.t) (fuel : nat) (w : World)
           (token searchQuery : string) : Run Error World * list Event :=
  let client := getOctokit token in
  let queryText := queryTextOf context searchQuery in
  while_traced client queryText fuel
    {| cursor := None; hasNextPage := true; issues := [];
       world := w; log := [] |}
    [Debugged ("Query: " ++ queryText)%string].

(** The events one remote call leaves: the call, and the [Results:] line
    when the call was fulfilled. *)
Definition eventsOf (x : Exchange Error) : list Event :=
  Called x
    :: match x.(settlement) with
       | Fulfilled results =>
           [Debugged ("Results: " ++ stringify results)%string]
       | _ => []
       end.

End Diagnostics.

Arguments Event : clear implicits.

(** Whether a character occurs in a text. *)
Fixpoint mentions (c : ascii) (s : string) : bool :=
  match s with
  | EmptyString => false
  | String a rest => if Ascii.eqb a c then true else mentions c rest
  end.

(** A service that answers every call with the same page. *)
Definition stuck {Error : Type} (results : QueryResponse)
  : GitHubClient Error unit :=
  paged (fun _ => page results).

(** ** The scenario of the specification *)

Definition issueA : Issue :=
  {| title := "A"; url := "u1"; labels := {| Labels.nodes := [] |} |}.

Definition issueB : Issue :=
  {| title := "B"; url := "u2";
     labels := {| Labels.nodes := [{| name := "bug" |}] |} |}.

Definition page1 : QueryResponse :=
  {| search := {| Search.pageInfo :=
                    {| PageInfo.endCursor := "c1";
                       PageInfo.hasNextPage := true |};
                  Search.nodes := [issueA] |} |}.

Definition page2 : QueryResponse :=
  {| search := {| Search.pageInfo :=
                    {| PageInfo.endCursor := "c2";
                       PageInfo.hasNextPage := false |};
                  Search.nodes := [issueB] |} |}.

Definition orgRepo : Context.t :=
  {| Context.repo := {| owner := "org"; repo := "repo" |} |}.

Definition acmeWidgets : Context.t :=
  {| Context.repo := {| owner := "acme"; repo := "widgets" |} |}.

Definition scenario : Run string (list (Settlement string)) :=
  search_script orgRepo 5 [page page1; page page2] "token" "".

Example scenario_result :
  scenario.(completion) = Returned [issueA; issueB]
  /\ map (fun x => x.(request).(RequestParameters.cursor)) scenario.(final).(log)
     = [None; Some "c1"]
  /\ map (fun x => x.(request).(RequestParameters.searchQuery))
         scenario.(final).(log)
     = ["repo:org/repo "; "repo:org/repo "].
Proof. repeat split; reflexivity. Qed.

(** The same two pages served by cursor: the second page is only reached
    because the loop sends back the cursor of the first. *)
Example paged_scenario :
  let book cur :=
    match cur with
    | None => @page string page1
    | Some "c1" => page page2
    | Some _ => Rejected "unknown cursor"
    end in
  (getMatchingIssues (fun _ => paged book) orgRepo 5 tt "token" "").(completion)
  = Returned [issueA; issueB].
Proof. reflexivity. Qed.

(** ** Pages and their issues *)

Lemma pagesOf_app {Error : Type} (a b : list (Settlement Error)) :
  pagesOf (a ++ b) = pagesOf a ++ pagesOf b.
Proof.
  induction a as [|[[r|]|e|] a IH]; simpl; rewrite ?IH; reflexivity.
Qed.

Lemma pagesOf_pages {Error : Type} (pages : list QueryResponse) :
  pagesOf (map (@page Error) pages) = pages.
Proof.
  induction pages as [|p pages IH]; simpl; rewrite ?IH; reflexivity.
Qed.

Lemma issuesOf_app (a b : list QueryResponse) :
  issuesOf (a ++ b) = issuesOf a ++ issuesOf b.
Proof. unfold issuesOf. rewrite map_app, concat_app. reflexivity. Qed.

(** ** The loop against an arbitrary client *)

Section Loop.

Context {Error World : Type}.
Variable client : GitHubClient Error World.
Variable queryText : string.

(** The loop only ever appends to the log and never reads it. *)
Lemma while_relog fuel : forall cur more acc w lg l,
  while client queryText fuel
    {| cursor := cur; hasNextPage := more; issues := acc; world := w;
       log := l ++ lg |}
  = relog l (while client queryText fuel
               {| cursor := cur; hasNextPage := more; issues := acc;
                  world := w; log := lg |}).
Proof.
  induction fuel as [|fuel IH]; intros cur more acc w lg l; simpl.
  - destruct more; reflexivity.
  - destruct more; [|reflexivity].
    destruct (graphql client query _ w) as [[[results|]|reason|] w'];
      rewrite <- ?app_assoc; try reflexivity; apply IH.
Qed.

(** The loop entered with the flag down returns at once. *)
Lemma while_done fuel cur acc w :
  while client queryText fuel (entering cur false acc w)
  = {| completion := Returned acc; final := entering cur false acc w |}.
Proof. destruct fuel; reflexivity. Qed.

(** One iteration: the call, then what the answer selects. *)
Lemma while_iteration fuel cur acc w :
  while client queryText (S fuel) (entering cur true acc w)
  = let (answer, w') :=
      client.(graphql) query (requestFor queryText cur) w in
    let x := {| document := query; request := requestFor queryText cur;
                settlement := answer |} in
    match answer with
    | Fulfilled (Some results) =>
        relog [x]
          (while client queryText fuel
             (entering
                (Some results.(search).(Search.pageInfo).(PageInfo.endCursor))
                (moreAfter results)
                (acc ++ results.(search).(Search.nodes)) w'))
    | Fulfilled None =>
        relog [x] (while client queryText fuel (entering cur false acc w'))
    | Rejected reason =>
        {| completion := Threw reason;
           final := withLog [x] (entering cur true acc w') |}
    | Unsettled =>
        {| completion := Suspended;
           final := withLog [x] (entering cur true acc w') |}
    end.
Proof.
  unfold entering, requestFor, moreAfter. simpl.
  destruct (graphql client query _ w) as [[[results|]|reason|] w'];
    try reflexivity.
  - rewrite map_id. apply (while_relog fuel _ _ _ _ [] [_]).
  - apply (while_relog fuel _ _ _ _ [] [_]).
Qed.

(** A run that returns does so with the accumulator, in state [DONE]. *)
Lemma while_returned fuel : forall c result,
  (while client queryText fuel c).(completion) = Returned result ->
  result = (while client queryText fuel c).(final).(issues)
  /\ stateOf (while client queryText fuel c).(final) = DONE.
Proof.
  induction fuel as [|fuel IH]; intros [cur more acc w lg] result; simpl.
  - destruct more; simpl; [discriminate|].
    intros H; injection H as <-. split; reflexivity.
  - destruct more; simpl.
    + destruct (graphql client query _ w) as [[[results|]|reason|] w'];
        simpl; try discriminate; apply IH.
    + intros H; injection H as <-. split; reflexivity.
Qed.

(** The accumulator holds the issues of the pages received so far. *)
Lemma while_accumulates fuel : forall c,
  c.(issues) = issuesOf (pagesOf (map (@settlement Error) c.(log))) ->
  (while client queryText fuel c).(final).(issues)
  = issuesOf (received (while client queryText fuel c)).
Proof.
  unfold received.
  induction fuel as [|fuel IH]; intros [cur more acc w lg]; simpl; intros Hacc.
  - destruct more; exact Hacc.
  - destruct more; [|exact Hacc].
    destruct (graphql client query _ w) as [[[results|]|reason|] w'];
      simpl; try apply IH; simpl; rewrite map_app, pagesOf_app; simpl;
      rewrite ?app_nil_r; try exact Hacc.
    rewrite issuesOf_app, <- Hacc, map_id. unfold issuesOf. simpl.
    rewrite app_nil_r. reflexivity.
Qed.

(** The calls of a run are the transcript of the answers it got: each
    request carries the query text, the template and the cursor held. *)
Lemma while_transcript fuel : forall cur more acc w,
  let r := while client queryText fuel (entering cur more acc w) in
  r.(final).(log)
  = transcript queryText cur (map (@settlement Error) r.(final).(log)).
Proof.
  induction fuel as [|fuel IH]; intros cur [|] acc w;
    try (rewrite while_done; reflexivity); [reflexivity|].
  cbv zeta. rewrite while_iteration.
  destruct (graphql client query _ w) as [[[results|]|reason|] w'];
    try reflexivity; cbn [relog final log withLog app map transcript advance
                          settlement];
    f_equal; apply IH.
Qed.

(** Every answer but the last of a run is a page that announces more. *)
Lemma while_continuing fuel : forall cur more acc w,
  let r := while client queryText fuel (entering cur more acc w) in
  Forall (fun a => continuing a = true)
         (removelast (map (@settlement Error) r.(final).(log))).
Proof.
  induction fuel as [|fuel IH]; intros cur [|] acc w;
    try (rewrite while_done; constructor); [constructor|].
  cbv zeta. rewrite while_iteration.
  destruct (graphql client query _ w) as [[[results|]|reason|] w'];
    try (constructor; fail).
  - cbn [relog final log withLog app map].
    destruct (moreAfter results) eqn:Hmore.
    + specialize (IH (Some results.(search).(Search.pageInfo).(PageInfo.endCursor))
                     true (acc ++ results.(search).(Search.nodes)) w').
      cbv zeta in IH.
      destruct (map _ (log (final (while client queryText fuel _))));
        [constructor|].
      constructor; [exact Hmore|exact IH].
    + rewrite while_done. constructor.
  - cbn [relog final log withLog app map]. rewrite while_done. constructor.
Qed.

End Loop.

(** ** The loop against a scripted service *)

Section Scripted.

Context {Error : Type}.
Variable queryText : string.

Lemma relog_nil {World} (r : Run Error World) : relog [] r = r.
Proof. destruct r as [done [cur more acc w lg]]. reflexivity. Qed.

Lemma relog_cons {World} (x : Exchange Error) l (r : Run Error World) :
  relog (x :: l) r = relog [x] (relog l r).
Proof. reflexivity. Qed.

(** Pages that all announce a successor are consumed one per iteration;
    the loop then carries on with what is left of the script. *)
Lemma scripted_pages (pages : list QueryResponse) :
  forall (rest : list (Settlement Error)) fuel cur acc,
    Forall (fun p => moreAfter p = true) pages ->
    while scripted queryText (length pages + fuel)
      (entering cur true acc (map (@page Error) pages ++ rest))
    = relog (transcript queryText cur (map (@page Error) pages))
        (while scripted queryText fuel
           (entering (fold_left advance (map (@page Error) pages) cur) true
                     (acc ++ issuesOf pages) rest)).
Proof.
  induction pages as [|p pages IH]; intros rest fuel cur acc Hmore.
  - simpl. rewrite relog_nil. unfold issuesOf. simpl.
    rewrite app_nil_r. reflexivity.
  - inversion Hmore as [|? ? Hp Hps]; subst.
    cbn [length Nat.add map app]. rewrite while_iteration.
    cbn [scripted graphql]. unfold page at 1. cbv iota beta.
    rewrite Hp, IH by assumption.
    cbn [transcript fold_left advance]. rewrite relog_cons.
    unfold issuesOf. cbn [map concat]. rewrite app_assoc. reflexivity.
Qed.

Lemma transcript_app (a b : list (Settlement Error)) : forall cur,
  transcript queryText cur (a ++ b)
  = transcript queryText cur a
      ++ transcript queryText (fold_left advance a cur) b.
Proof.
  induction a as [|x a IH]; intros cur; simpl; [|rewrite IH]; reflexivity.
Qed.

(** The whole run on a script that opens with pages announcing a successor
    followed by an answer that does not. *)
Lemma scripted_run (pages : list QueryResponse) (a : Settlement Error)
      (rest : list (Settlement Error)) fuel cur acc :
  Forall (fun p => moreAfter p = true) pages ->
  continuing a = false ->
  while scripted queryText (length pages + S fuel)
    (entering cur true acc (map (@page Error) pages ++ a :: rest))
  = {| completion := verdict (acc ++ issuesOf (pages ++ pagesOf [a])) a;
       final :=
         {| cursor := fold_left advance (map (@page Error) pages ++ [a]) cur;
            hasNextPage := flagAfter a;
            issues := acc ++ issuesOf (pages ++ pagesOf [a]);
            world := rest;
            log := transcript queryText cur (map (@page Error) pages ++ [a])
         |} |}.
Proof.
  intros Hmore Ha. rewrite scripted_pages by assumption.
  rewrite while_iteration. cbn [scripted graphql].
  rewrite transcript_app, fold_left_app, issuesOf_app, app_assoc.
  destruct a as [[results|]|reason|]; cbn [continuing] in Ha;
    cbn [pagesOf fold_left advance transcript flagAfter verdict];
    rewrite ?Ha, ?while_done; unfold issuesOf; cbn [map concat];
    rewrite ?app_nil_r; reflexivity.
Qed.

End Scripted.

(** ** Query construction *)

Lemma append_assoc (a b c : string) :
  ((a ++ b) ++ c = a ++ b ++ c)%string.
Proof. induction a as [|x a IH]; simpl; [|rewrite IH]; reflexivity. Qed.

Lemma append_empty_r (a : string) : (a ++ "" = a)%string.
Proof. induction a as [|x a IH]; simpl; [|rewrite IH]; reflexivity. Qed.

Lemma transcript_requests {Error : Type} queryText
      (answers : list (Settlement Error)) : forall cur,
  Forall (fun x : Exchange Error =>
            x.(document) = query
            /\ x.(request).(RequestParameters.searchQuery) = queryText)
         (transcript queryText cur answers).
Proof.
  induction answers as [|a l IH]; intros cur; simpl; constructor; auto.
Qed.

(** Every call of an invocation carries the query template and the query
    text built from the context and the predicate, and with fuel for one
    iteration at least one call is made. *)
Lemma getMatchingIssues_requests {Error World : Type}
      (getOctokit : string -> GitHubClient Error World) context fuel w
      token searchQuery :
  let r := getMatchingIssues getOctokit context (S fuel) w token searchQuery in
  1 <= calls r
  /\ Forall (fun x : Exchange Error =>
               x.(document) = query
               /\ x.(request).(RequestParameters.searchQuery)
                  = queryTextOf context searchQuery)
            r.(final).(log).
Proof.
  cbv zeta. unfold getMatchingIssues, calls.
  fold (entering (Error := Error) None true [] w).
  split.
  - rewrite while_iteration.
    destruct (graphql (getOctokit token) query _ w) as [[[results|]|reason|] w'];
      simpl; lia.
  - pose proof (while_transcript (getOctokit token)
                  (queryTextOf context searchQuery) (S fuel) None true [] w)
      as Hlog.
    cbv zeta in Hlog. rewrite Hlog. apply transcript_requests.
Qed.

(** C3: with owner "acme", name "widgets" and predicate "is:open label:bug",
    the repo qualifier is "acme/widgets", the query text is exactly
    "repo:acme/widgets is:open label:bug", and that is the [searchQuery]
    of every remote call, of which there is at least one. *)
Theorem query_construction {Error World : Type}
        (getOctokit : string -> GitHubClient Error World) fuel w token :
  let r := getMatchingIssues getOctokit acmeWidgets (S fuel) w token
             "is:open label:bug" in
  formatNameWithOwner {| owner := "acme"; repo := "widgets" |} = "acme/widgets"
  /\ queryTextOf acmeWidgets "is:open label:bug"
     = "repo:acme/widgets is:open label:bug"
  /\ 1 <= calls r
  /\ Forall (fun x : Exchange Error =>
               x.(request).(RequestParameters.searchQuery)
               = "repo:acme/widgets is:open label:bug")
            r.(final).(log).
Proof.
  cbv zeta. split; [reflexivity|]. split; [reflexivity|].
  destruct (getMatchingIssues_requests getOctokit acmeWidgets fuel w token
              "is:open label:bug") as [Hcalls Hall].
  split; [exact Hcalls|].
  eapply Forall_impl; [|exact Hall].
  intros x [_ Hx]. exact Hx.
Qed.

(** C10: with the empty predicate the query text is the repo qualifier
    followed by one space, "repo:<owner>/<repo> ": the separating space is
    there although nothing follows it; this is the text every remote call
    carries. *)
Theorem empty_predicate_query {Error World : Type}
        (getOctokit : string -> GitHubClient Error World) context fuel w token :
  let r := getMatchingIssues getOctokit context (S fuel) w token "" in
  queryTextOf context ""
  = ("repo:" ++ context.(Context.repo).(owner) ++ "/"
       ++ context.(Context.repo).(repo) ++ " ")%string
  /\ 1 <= calls r
  /\ Forall (fun x : Exchange Error =>
               x.(request).(RequestParameters.searchQuery)
               = ("repo:" ++ context.(Context.repo).(owner) ++ "/"
                    ++ context.(Context.repo).(repo) ++ " ")%string)
            r.(final).(log).
Proof.
  cbv zeta.
  assert (Htext : queryTextOf context ""
                  = ("repo:" ++ context.(Context.repo).(owner) ++ "/"
                       ++ context.(Context.repo).(repo) ++ " ")%string).
  { unfold queryTextOf, formatNameWithOwner.
    rewrite !append_assoc. reflexivity. }
  split; [exact Htext|].
  destruct (getMatchingIssues_requests getOctokit context fuel w token "")
    as [Hcalls Hall].
  split; [exact Hcalls|].
  eapply Forall_impl; [|exact Hall].
  intros x [_ Hx]. rewrite Hx. exact Htext.
Qed.

(** ** Runs against a scripted service *)

Lemma search_script_while {Error : Type} context fuel
      (script : list (Settlement Error)) token searchQuery :
  search_script context fuel script token searchQuery
  = while scripted (queryTextOf context searchQuery) fuel
      (entering None true [] script).
Proof. reflexivity. Qed.

Lemma length_transcript {Error : Type} queryText
      (answers : list (Settlement Error)) : forall cur,
  length (transcript queryText cur answers) = length answers.
Proof.
  induction answers as [|a l IH]; intros cur; simpl; [|rewrite IH]; reflexivity.
Qed.

Lemma firstn_through {A : Type} (l : list A) a m n :
  n = length l -> firstn (S n) (l ++ a :: m) = l ++ [a].
Proof.
  intros ->. induction l as [|x l IH]; simpl; [|rewrite <- IH]; reflexivity.
Qed.

Lemma skipn_through {A : Type} (l : list A) a m n :
  n = length l -> skipn (S n) (l ++ a :: m) = m.
Proof.
  intros ->. induction l as [|x l IH]; simpl; [reflexivity|exact IH].
Qed.

(** A sequence with a terminal response splits at the first one: before it
    come pages that announce a successor. *)
Lemma split_at_terminal (responses : list GraphQlQueryResponseData) :
  existsb terminal responses = true ->
  exists pre t post,
    responses = map Some pre ++ t :: post
    /\ Forall (fun p => moreAfter p = true) pre
    /\ terminal t = true
    /\ firstTerminal responses = length pre.
Proof.
  induction responses as [|r rs IH]; simpl; [discriminate|].
  destruct (terminal r) eqn:Hr; simpl.
  - intros _. exists [], r, rs. repeat split; [constructor|exact Hr].
  - intros Hex. destruct (IH Hex) as (pre & t & post & -> & Hpre & Ht & Hk).
    destruct r as [p|]; [|discriminate].
    exists (p :: pre), t, post. repeat split.
    + constructor; [|exact Hpre].
      simpl in Hr. destruct (moreAfter p); [reflexivity|discriminate].
    + exact Ht.
    + simpl. rewrite Hk. reflexivity.
Qed.

(** C1: when the service answers with pages P1..Pn, all but the last with
    hasNextPage = true and the last with hasNextPage = false, the invocation
    returns (given fuel for n iterations) the issue lists of P1..Pn one
    after the other, each in the order received. *)
Theorem pages_concatenated {Error : Type} context token searchQuery
        (init : list QueryResponse) (last : QueryResponse)
        (rest : list (Settlement Error)) fuel :
  Forall (fun p => p.(search).(Search.pageInfo).(PageInfo.hasNextPage) = true)
         init ->
  last.(search).(Search.pageInfo).(PageInfo.hasNextPage) = false ->
  length (init ++ [last]) <= fuel ->
  (search_script context fuel (map (@page Error) (init ++ [last]) ++ rest)
     token searchQuery).(completion)
  = Returned (concat (map (fun p => p.(search).(Search.nodes))
                          (init ++ [last]))).
Proof.
  intros Hinit Hlast Hfuel. rewrite length_app in Hfuel. simpl in Hfuel.
  replace fuel with (length init + S (fuel - length init - 1)) by lia.
  rewrite search_script_while, map_app, <- app_assoc. simpl.
  rewrite scripted_run; [reflexivity|exact Hinit|exact Hlast].
Qed.

Lemma pages_concatenated_witness :
  (search_script orgRepo 2 (map (@page string) ([page1] ++ [page2]) ++ [])
     "token" "").(completion)
  = Returned (concat (map (fun p => p.(search).(Search.nodes))
                          ([page1] ++ [page2]))).
Proof.
  apply (@pages_concatenated string orgRepo "token" "" [page1] page2 [] 2).
  - repeat constructor.
  - reflexivity.
  - simpl. lia.
Defined.

(** C7: when the first call is answered with a page whose hasNextPage is
    false, the invocation makes exactly one remote call and returns exactly
    the issues of that page. *)
Theorem single_page {Error World : Type}
        (getOctokit : string -> GitHubClient Error World) context fuel w
        token searchQuery (first : QueryResponse) (w' : World) :
  (getOctokit token).(graphql) query
    (requestFor (queryTextOf context searchQuery) None) w
  = (Fulfilled (Some first), w') ->
  first.(search).(Search.pageInfo).(PageInfo.hasNextPage) = false ->
  let r := getMatchingIssues getOctokit context (S fuel) w token searchQuery in
  r.(completion) = Returned first.(search).(Search.nodes)
  /\ calls r = 1
  /\ r.(final).(world) = w'.
Proof.
  intros Hcall Hlast. cbv zeta. unfold getMatchingIssues, calls.
  fold (entering (Error := Error) None true [] w).
  rewrite while_iteration, Hcall.
  unfold moreAfter. rewrite Hlast, while_done. simpl. repeat split.
Qed.

Lemma single_page_witness :
  let r := getMatchingIssues (fun _ => scripted) orgRepo 1
             [@page string page2] "token" "" in
  r.(completion) = Returned [issueB] /\ calls r = 1 /\ r.(final).(world) = [].
Proof.
  apply (@single_page string _ (fun _ => scripted) orgRepo 0
           [@page string page2] "token" "" page2 []); reflexivity.
Defined.

(** C4: a null response ends the pagination as a success.  Answered null
    on the first call, the invocation returns the empty sequence; answered
    null on call N, after N-1 pages, it returns exactly the issues of those
    N-1 pages, having made N calls; it does not throw. *)
Theorem null_response_terminates {Error : Type} context token searchQuery
        (pages : list QueryResponse) (rest : list (Settlement Error)) fuel :
  Forall (fun p => p.(search).(Search.pageInfo).(PageInfo.hasNextPage) = true)
         pages ->
  length pages < fuel ->
  let first := search_script context fuel (Fulfilled None :: rest)
                 token searchQuery in
  let r := search_script context fuel
             (map (@page Error) pages ++ Fulfilled None :: rest)
             token searchQuery in
  first.(completion) = Returned []
  /\ r.(completion)
     = Returned (concat (map (fun p => p.(search).(Search.nodes)) pages))
  /\ calls r = S (length pages)
  /\ r.(final).(world) = rest.
Proof.
  intros Hpages Hfuel. cbv zeta. split.
  - destruct fuel as [|fuel]; [lia|].
    rewrite search_script_while.
    exact (f_equal (@completion _ _)
             (@scripted_run Error (queryTextOf context searchQuery) []
                (Fulfilled None) rest fuel None [] (Forall_nil _) eq_refl)).
  - replace fuel with (length pages + S (fuel - length pages - 1)) by lia.
    rewrite search_script_while, scripted_run by (assumption || reflexivity).
    unfold calls. cbn [completion final log world verdict pagesOf].
    rewrite length_transcript, length_app, length_map, app_nil_r. simpl.
    repeat split. lia.
Qed.

Lemma null_response_terminates_witness :
  (search_script orgRepo 2 [Fulfilled None] "token" "").(completion)
  = @Returned string []
  /\ (search_script orgRepo 2 [@page string page1; Fulfilled None]
        "token" "").(completion)
     = Returned [issueA].
Proof.
  destruct (@null_response_terminates string orgRepo "token" "" [page1] [] 2)
    as (Hfirst & Hr & _).
  - repeat constructor.
  - simpl. lia.
  - split; [exact Hfirst|exact Hr].
Defined.

(** C6: when a remote call is rejected, after any number of pages, the
    invocation throws that very error and returns nothing: the issues
    accumulated from the earlier pages are not delivered, and no further
    call is made. *)
Theorem error_propagates {Error : Type} context token searchQuery
        (pages : list QueryResponse) (reason : Error)
        (rest : list (Settlement Error)) fuel :
  Forall (fun p => p.(search).(Search.pageInfo).(PageInfo.hasNextPage) = true)
         pages ->
  length pages < fuel ->
  let r := search_script context fuel
             (map (@page Error) pages ++ Rejected reason :: rest)
             token searchQuery in
  r.(completion) = Threw reason
  /\ (forall result, r.(completion) <> Returned result)
  /\ r.(final).(issues)
     = concat (map (fun p => p.(search).(Search.nodes)) pages)
  /\ calls r = S (length pages)
  /\ r.(final).(world) = rest.
Proof.
  intros Hpages Hfuel. cbv zeta.
  replace fuel with (length pages + S (fuel - length pages - 1)) by lia.
  rewrite search_script_while, scripted_run by (assumption || reflexivity).
  unfold calls. cbn [completion final log world issues verdict pagesOf].
  rewrite length_transcript, length_app, length_map, app_nil_r. simpl.
  repeat split; try lia. discriminate.
Qed.

Lemma error_propagates_witness :
  let r := search_script orgRepo 2 [page page1; Rejected "Bad credentials"]
             "token" "" in
  r.(completion) = Threw "Bad credentials"
  /\ r.(final).(issues) = [issueA].
Proof.
  destruct (@error_propagates string orgRepo "token" "" [page1]
              "Bad credentials" [] 2) as (Hthrew & _ & Hissues & _).
  - repeat constructor.
  - simpl. lia.
  - split; [exact Hthrew|exact Hissues].
Defined.

(** C9: when the responses of the service contain one with hasNextPage =
    false or a null one, the loop terminates: given fuel for the calls up to
    the first such response, the invocation returns in state DONE, having
    made exactly the calls up to and including that response and left the
    rest of the responses untouched. *)
Theorem pagination_terminates {Error : Type} context token searchQuery
        (responses : list GraphQlQueryResponseData)
        (rest : list (Settlement Error)) fuel :
  existsb terminal responses = true ->
  firstTerminal responses < fuel ->
  let script := map (@Fulfilled Error) responses ++ rest in
  let k := firstTerminal responses in
  let r := search_script context fuel script token searchQuery in
  r.(completion) = Returned (issuesOf (pagesOf (firstn (S k) script)))
  /\ stateOf r.(final) = DONE
  /\ calls r = S k
  /\ S k <= length responses
  /\ r.(final).(world) = skipn (S k) script.
Proof.
  intros Hex Hfuel. cbv zeta.
  destruct (split_at_terminal responses Hex)
    as (pre & t & post & -> & Hpre & Ht & Hk).
  rewrite Hk in *. clear Hk.
  rewrite map_app, map_map, <- app_assoc.
  change (map (fun x => Fulfilled (Some x)) pre) with (map (@page Error) pre).
  cbn [map app].
  rewrite firstn_through, skipn_through, pagesOf_app, pagesOf_pages
    by (rewrite length_map; reflexivity).
  replace fuel with (length pre + S (fuel - length pre - 1)) by lia.
  assert (Hstop : continuing (@Fulfilled Error t) = false).
  { destruct t as [p|]; simpl in *; [|reflexivity].
    destruct (moreAfter p); [discriminate|reflexivity]. }
  rewrite search_script_while, scripted_run by assumption.
  unfold calls, stateOf.
  cbn [completion final log world hasNextPage verdict app].
  rewrite length_transcript, !length_app, !length_map. cbn [length].
  repeat split; try lia.
  destruct t as [p|]; simpl in *; [|reflexivity].
  destruct (moreAfter p); [discriminate|reflexivity].
Qed.

Lemma pagination_terminates_witness :
  let script := [@page string page1; page page2; page page1] in
  let r := search_script orgRepo 2 script "token" "" in
  r.(completion) = Returned [issueA; issueB]
  /\ stateOf r.(final) = DONE
  /\ calls r = 2
  /\ r.(final).(world) = [page page1].
Proof.
  destruct (@pagination_terminates string orgRepo "token" ""
              [Some page1; Some page2; Some page1] [] 2)
    as (Hdone & Hstate & Hcalls & _ & Hworld).
  - reflexivity.
  - simpl. lia.
  - cbv zeta.
    split; [exact Hdone|]. split; [exact Hstate|].
    split; [exact Hcalls|exact Hworld].
Defined.

(** ** Cursor propagation *)

(** In a transcript each request carries the cursor the previous answer
    left behind. *)
Lemma transcript_chain {Error : Type} queryText
      (answers : list (Settlement Error)) : forall cur N x y,
  nth_error (transcript queryText cur answers) N = Some x ->
  nth_error (transcript queryText cur answers) (S N) = Some y ->
  y.(request).(RequestParameters.cursor)
  = advance x.(request).(RequestParameters.cursor) x.(settlement).
Proof.
  induction answers as [|a l IH]; intros cur N x y; [destruct N; discriminate|].
  destruct N as [|N]; simpl.
  - intros Hx. injection Hx as <-.
    destruct l as [|b l]; simpl; [discriminate|].
    intros Hy. injection Hy as <-. reflexivity.
  - apply IH.
Qed.

(** What holds of all elements but the last holds of any element that has
    a successor. *)
Lemma removelast_nth_error {A : Type} (P : A -> Prop) (l : list A) :
  Forall P (removelast l) ->
  forall N a b, nth_error l N = Some a -> nth_error l (S N) = Some b -> P a.
Proof.
  induction l as [|a0 l IH]; intros Hall N a b; [destruct N; discriminate|].
  destruct l as [|a1 l]; [destruct N as [|[|N]]; discriminate|].
  change (removelast (a0 :: a1 :: l)) with (a0 :: removelast (a1 :: l)) in Hall.
  inversion Hall as [|? ? H0 Htail]; subst.
  destruct N as [|N].
  - intros Ha _. injection Ha as <-. exact H0.
  - intros Ha Hb. exact (IH Htail N a b Ha Hb).
Qed.

(** C5: the first remote call of an invocation is made with the cursor
    absent, and whenever a call N+1 follows a call N, call N was answered
    with a page and the cursor of call N+1 is that page's endCursor. *)
Theorem cursor_propagation {Error World : Type}
        (getOctokit : string -> GitHubClient Error World) context fuel w
        token searchQuery :
  let t := (getMatchingIssues getOctokit context (S fuel) w token
              searchQuery).(final).(log) in
  option_map (fun x : Exchange Error => x.(request).(RequestParameters.cursor))
             (nth_error t 0)
  = Some None
  /\ forall N x y,
       nth_error t N = Some x ->
       nth_error t (S N) = Some y ->
       exists results,
         x.(settlement) = Fulfilled (Some results)
         /\ y.(request).(RequestParameters.cursor)
            = Some results.(search).(Search.pageInfo).(PageInfo.endCursor).
Proof.
  cbv zeta.
  destruct (getMatchingIssues_requests getOctokit context fuel w token
              searchQuery) as [Hcalls _].
  unfold calls in Hcalls. revert Hcalls. unfold getMatchingIssues.
  fold (entering (Error := Error) None true [] w).
  pose proof (while_transcript (getOctokit token)
                (queryTextOf context searchQuery) (S fuel) None true [] w)
    as Hlog.
  pose proof (while_continuing (getOctokit token)
                (queryTextOf context searchQuery) (S fuel) None true [] w)
    as Hcont.
  cbv zeta in Hlog, Hcont.
  set (t := log (final (while _ _ _ _))) in *.
  intros Hcalls. split.
  - rewrite Hlog. destruct t as [|x t']; [simpl in Hcalls; lia|reflexivity].
  - intros N x y Hx Hy.
    assert (Hgo : continuing x.(settlement) = true).
    { apply (@removelast_nth_error _ (fun a => continuing a = true) _ Hcont
               N x.(settlement) y.(settlement)).
      - rewrite nth_error_map, Hx. reflexivity.
      - rewrite nth_error_map, Hy. reflexivity. }
    rewrite Hlog in Hx, Hy.
    rewrite (@transcript_chain _ _ _ _ _ _ _ Hx Hy).
    destruct (settlement x) as [[results|]|reason|]; try discriminate.
    exists results. split; reflexivity.
Qed.

Lemma cursor_propagation_witness :
  exists results,
    settlement (Error := string)
      {| document := query; request := requestFor "repo:org/repo " None;
         settlement := page page1 |}
    = Fulfilled (Some results)
    /\ RequestParameters.cursor (requestFor "repo:org/repo " (Some "c1"))
       = Some results.(search).(Search.pageInfo).(PageInfo.endCursor).
Proof.
  apply (proj2 (@cursor_propagation string _ (fun _ => scripted) orgRepo 1
                  [page page1; page page2] "token" "")
               0
               {| document := query; request := requestFor "repo:org/repo " None;
                  settlement := page page1 |}
               {| document := query;
                  request := requestFor "repo:org/repo " (Some "c1");
                  settlement := page page2 |});
    reflexivity.
Defined.

(** ** The accumulator *)

Lemma count_occ_concat (i : Issue) (ls : list (list Issue)) :
  count_occ Issue_eq_dec (concat ls) i
  = list_sum (map (fun l => count_occ Issue_eq_dec l i) ls).
Proof.
  induction ls as [|l ls IH]; simpl; [reflexivity|].
  rewrite count_occ_app, IH. reflexivity.
Qed.

(** What an invocation returns is the issues of the pages it received. *)
Lemma getMatchingIssues_returns {Error World : Type}
      (getOctokit : string -> GitHubClient Error World) context fuel w
      token searchQuery result :
  let r := getMatchingIssues getOctokit context fuel w token searchQuery in
  r.(completion) = Returned result ->
  result = issuesOf (received r) /\ stateOf r.(final) = DONE.
Proof.
  cbv zeta. unfold getMatchingIssues. intros Hret.
  destruct (while_returned _ _ _ _ Hret) as [-> Hdone].
  split; [|exact Hdone].
  apply while_accumulates. reflexivity.
Qed.

(** What an invocation returns when the service's responses contain a
    terminal one: the issues of the pages delivered up to it. *)
Lemma search_script_delivers {Error : Type} context token searchQuery
      (responses : list GraphQlQueryResponseData)
      (rest : list (Settlement Error)) fuel :
  existsb terminal responses = true ->
  firstTerminal responses < fuel ->
  (search_script context fuel (map (@Fulfilled Error) responses ++ rest)
     token searchQuery).(completion)
  = Returned
      (issuesOf
         (pagesOf (firstn (S (firstTerminal responses))
                          (map (@Fulfilled Error) responses ++ rest)))).
Proof.
  intros Hex Hfuel.
  destruct (split_at_terminal responses Hex)
    as (pre & t & post & -> & Hpre & Ht & Hk).
  rewrite Hk in *. clear Hk.
  rewrite map_app, map_map, <- app_assoc.
  change (map (fun x => Fulfilled (Some x)) pre) with (map (@page Error) pre).
  cbn [map app].
  rewrite firstn_through, pagesOf_app, pagesOf_pages
    by (rewrite length_map; reflexivity).
  replace fuel with (length pre + S (fuel - length pre - 1)) by lia.
  assert (Hstop : continuing (@Fulfilled Error t) = false).
  { destruct t as [p|]; simpl in *; [|reflexivity].
    destruct (moreAfter p); [discriminate|reflexivity]. }
  rewrite search_script_while, scripted_run by assumption.
  reflexivity.
Qed.

(** C8: whatever responses the service gives, up to the one that ends the
    pagination, the invocation returns a sequence that is as long as the
    issue lists of the pages the service delivered taken together, and in
    which every issue occurs as many times as it occurs in those pages: an
    issue that the service puts in two pages is twice in the output. *)
Theorem no_deduplication {Error : Type} context token searchQuery
        (responses : list GraphQlQueryResponseData)
        (rest : list (Settlement Error)) fuel :
  existsb terminal responses = true ->
  firstTerminal responses < fuel ->
  let script := map (@Fulfilled Error) responses ++ rest in
  let delivered := pagesOf (firstn (S (firstTerminal responses)) script) in
  let r := search_script context fuel script token searchQuery in
  exists result,
    r.(completion) = Returned result
    /\ length result
       = list_sum (map (fun p => length p.(search).(Search.nodes)) delivered)
    /\ forall i,
         count_occ Issue_eq_dec result i
         = list_sum (map (fun p => count_occ Issue_eq_dec
                                     p.(search).(Search.nodes) i)
                         delivered).
Proof.
  intros Hex Hfuel. cbv zeta.
  rewrite (search_script_delivers context token searchQuery responses rest
             Hex Hfuel).
  eexists. split; [reflexivity|].
  unfold issuesOf. split.
  - rewrite length_concat, map_map. reflexivity.
  - intros i. rewrite count_occ_concat, map_map. reflexivity.
Qed.

Lemma no_deduplication_witness :
  exists result,
    (search_script orgRepo 3
       [@page string page1; page page1; Fulfilled None] "token" "").(completion)
    = Returned result
    /\ length result = 2
    /\ count_occ Issue_eq_dec result issueA = 2.
Proof.
  destruct (@no_deduplication string orgRepo "token" ""
              [Some page1; Some page1; None] [] 3)
    as (result & Hret & Hlen & Hocc).
  - reflexivity.
  - simpl. lia.
  - exists result. split; [exact Hret|]. split; [exact Hlen|].
    exact (Hocc issueA).
Defined.

(** ** The shape of the returned issues *)

(** C2 as stated fails on the scenario of the specification: the second
    returned issue has for
    [labels] the object [{nodes: [{name: "bug"}]}] of the response, which is
    not the array ["bug"], nor an array of texts at all. *)
Lemma labels_not_names_array :
  scenario.(completion) = Returned [issueA; issueB]
  /\ property "labels" (Issue_object issueB)
     = Some (JsObject
               [("nodes", JsArray [JsObject [("name", JsString "bug")]])])
  /\ property "labels" (Issue_object issueB) <> Some (namesArray ["bug"])
  /\ (forall names,
        property "labels" (Issue_object issueB) <> Some (namesArray names))
  /\ (forall v, property "labels" (Issue_object issueB) = Some v ->
                isTextSequence v = false).
Proof.
  split; [reflexivity|]. split; [reflexivity|].
  split; [discriminate|]. split; [intros names; discriminate|].
  intros v Hv. injection Hv as <-. reflexivity.
Qed.

(** C2, amended: every issue an invocation returns is an issue of a page
    it received, unchanged; its [labels] is the object whose [nodes] member
    is the ordered sequence of label objects, each with a text [name], and
    the label names are read through [labels.nodes[].name]. *)
Theorem labels_as_received {Error World : Type}
        (getOctokit : string -> GitHubClient Error World) context fuel w
        token searchQuery result i :
  let r := getMatchingIssues getOctokit context fuel w token searchQuery in
  r.(completion) = Returned result ->
  In i result ->
  (exists p, In p (received r) /\ In i p.(search).(Search.nodes))
  /\ property "labels" (Issue_object i)
     = Some (JsObject
               [("nodes",
                 JsArray (map (fun l => JsObject [("name", JsString l.(name))])
                              i.(labels).(Labels.nodes)))])
  /\ labelNames i = map name i.(labels).(Labels.nodes).
Proof.
  cbv zeta. intros Hret Hin.
  destruct (getMatchingIssues_returns _ _ _ _ _ _ Hret) as [-> _].
  split; [|split; reflexivity].
  unfold issuesOf in Hin. apply in_concat in Hin.
  destruct Hin as (l & Hl & Hi). apply in_map_iff in Hl.
  destruct Hl as (p & <- & Hp). exists p. split; assumption.
Qed.

Lemma labels_as_received_witness :
  property "labels" (Issue_object issueB)
  = Some (JsObject [("nodes", JsArray [JsObject [("name", JsString "bug")]])])
  /\ labelNames issueB = ["bug"].
Proof.
  destruct (@labels_as_received string _ (fun _ => scripted) orgRepo 5
              [page page1; page page2] "token" "" [issueA; issueB] issueB
              eq_refl (or_intror (or_introl eq_refl)))
    as (_ & Hlabels & Hnames).
  split; [exact Hlabels|exact Hnames].
Defined.

(** ** Scripts are general enough *)

(** Whatever the client, replaying its answers from a script gives the same
    completion, the same calls and the same accumulator: the loop depends on
    the client through the succession of its answers only. *)
Lemma scripted_replays {Error World : Type} (client : GitHubClient Error World)
      queryText (rest : list (Settlement Error)) fuel :
  forall cur more acc w,
    let r := while client queryText fuel (entering cur more acc w) in
    let s := while scripted queryText fuel
               (entering cur more acc
                  (map (@settlement Error) r.(final).(log) ++ rest)) in
    s.(completion) = r.(completion)
    /\ s.(final).(log) = r.(final).(log)
    /\ s.(final).(issues) = r.(final).(issues)
    /\ s.(final).(world) = rest.
Proof.
  induction fuel as [|fuel IH]; intros cur [|] acc w; cbv zeta;
    try (rewrite !while_done; repeat split; fail);
    [repeat split|].
  rewrite (while_iteration client).
  destruct (graphql client query _ w) as [[[results|]|reason|] w'].
  - specialize (IH (Some results.(search).(Search.pageInfo).(PageInfo.endCursor))
                   (moreAfter results)
                   (acc ++ results.(search).(Search.nodes)) w').
    cbv zeta in IH. destruct IH as (Hc & Hl & Hi & Hw).
    cbn [relog final log withLog completion issues world map app
         settlement].
    rewrite while_iteration.
    cbn [scripted graphql relog final log withLog completion issues world
         app].
    rewrite Hc, Hl, Hi, Hw. repeat split.
  - specialize (IH cur false acc w').
    cbv zeta in IH. destruct IH as (Hc & Hl & Hi & Hw).
    cbn [relog final log withLog completion issues world map app
         settlement].
    rewrite while_iteration.
    cbn [scripted graphql relog final log withLog completion issues world
         app].
    rewrite Hc, Hl, Hi, Hw. repeat split.
  - cbn [final log withLog map app settlement].
    rewrite while_iteration. repeat split.
  - cbn [final log withLog map app settlement].
    rewrite while_iteration. repeat split.
Qed.

(** ** The shape of every run *)

Section Shape.

Context {Error World : Type}.
Variable client : GitHubClient Error World.
Variable queryText : string.

(** A run of the loop either is still iterating, every call so far having
    brought a page that announces a successor, or it has ended on the one
    answer that does not, with the completion that this answer selects. *)
Lemma while_shape fuel : forall cur acc w,
  let r := while client queryText fuel (entering cur true acc w) in
  (exists pages,
      map (@settlement Error) r.(final).(log) = map (@page Error) pages
      /\ Forall (fun p => moreAfter p = true) pages
      /\ length pages = fuel
      /\ r.(completion) = Iterating
      /\ r.(final).(issues) = acc ++ issuesOf pages)
  \/ (exists pages a,
         map (@settlement Error) r.(final).(log)
         = map (@page Error) pages ++ [a]
         /\ Forall (fun p => moreAfter p = true) pages
         /\ continuing a = false
         /\ length pages < fuel
         /\ r.(completion) = verdict (acc ++ issuesOf (pages ++ pagesOf [a])) a
         /\ r.(final).(issues) = acc ++ issuesOf (pages ++ pagesOf [a])).
Proof.
  induction fuel as [|fuel IH]; intros cur acc w; cbv zeta.
  - left. exists []. unfold issuesOf. simpl. rewrite app_nil_r.
    repeat split. constructor.
  - rewrite while_iteration.
    destruct (graphql client query _ w) as [[[results|]|reason|] w'].
    + destruct (moreAfter results) eqn:Hmore.
      * specialize (IH (Some results.(search).(Search.pageInfo).(PageInfo.endCursor))
                       (acc ++ results.(search).(Search.nodes)) w').
        cbv zeta in IH.
        cbn [relog final log withLog completion issues map app settlement].
        destruct IH as [(pages & Hlog & Hall & Hlen & Hdone & Hacc)
                       |(pages & a & Hlog & Hall & Ha & Hlen & Hdone & Hacc)].
        -- left. exists (results :: pages). rewrite Hlog, Hdone, Hacc.
           unfold issuesOf. simpl. rewrite <- app_assoc, Hlen.
           repeat split. constructor; assumption.
        -- right. exists (results :: pages), a. rewrite Hlog, Hdone, Hacc.
           unfold issuesOf. simpl. rewrite <- !app_assoc.
           repeat split; try assumption; [constructor; assumption|lia].
      * right. exists [], (@page Error results). rewrite while_done.
        unfold issuesOf. simpl. rewrite app_nil_r.
        repeat split; [constructor|exact Hmore|lia].
    + right. exists [], (Fulfilled None). rewrite while_done.
      unfold issuesOf. simpl. rewrite app_nil_r.
      repeat split; [constructor|lia].
    + right. exists [], (Rejected reason).
      unfold issuesOf. simpl. rewrite app_nil_r.
      repeat split; [constructor|lia].
    + right. exists [], (@Unsettled Error).
      unfold issuesOf. simpl. rewrite app_nil_r.
      repeat split; [constructor|lia].
Qed.

(** A completed loop yields the same run however much fuel is left over. *)
Lemma while_stable n : forall c m,
  (while client queryText n c).(completion) <> Iterating ->
  n <= m ->
  while client queryText m c = while client queryText n c.
Proof.
  induction n as [|n IH]; intros [cur more acc w lg] m Hdone Hle.
  - destruct more; simpl in Hdone; [congruence|].
    destruct m; reflexivity.
  - destruct m as [|m]; [lia|].
    destruct more; [|reflexivity].
    simpl in *.
    destruct (graphql client query _ w) as [[[results|]|reason|] w'];
      try reflexivity; apply IH; (exact Hdone || lia).
Qed.

(** The loop only ever adds to the accumulator and to the calls made. *)
Lemma while_extends fuel : forall c,
  exists moreIssues moreCalls,
    (while client queryText fuel c).(final).(issues)
    = c.(issues) ++ moreIssues
    /\ (while client queryText fuel c).(final).(log) = c.(log) ++ moreCalls.
Proof.
  induction fuel as [|fuel IH]; intros [cur more acc w lg].
  - exists [], []. destruct more; simpl; rewrite !app_nil_r; split; reflexivity.
  - destruct more; simpl;
      [|exists [], []; rewrite !app_nil_r; split; reflexivity].
    destruct (graphql client query _ w) as [[[results|]|reason|] w'].
    + destruct (IH {| cursor :=
                        Some results.(search).(Search.pageInfo).(PageInfo.endCursor);
                      issues := acc ++ map (fun issue => issue)
                                           results.(search).(Search.nodes);
                      hasNextPage :=
                        results.(search).(Search.pageInfo).(PageInfo.hasNextPage);
                      world := w';
                      log := lg ++ [{| document := query;
                                       request :=
                                         {| RequestParameters.cursor := cur;
                                            RequestParameters.searchQuery :=
                                              queryText |};
                                       settlement := Fulfilled (Some results) |}]
                   |})
        as (i & l & Hi & Hl).
      simpl in Hi, Hl. rewrite Hi, Hl, <- !app_assoc. eauto.
    + destruct (IH {| cursor := cur; issues := acc; hasNextPage := false;
                      world := w';
                      log := lg ++ [{| document := query;
                                       request :=
                                         {| RequestParameters.cursor := cur;
                                            RequestParameters.searchQuery :=
                                              queryText |};
                                       settlement := Fulfilled None |}] |})
        as (i & l & Hi & Hl).
      simpl in Hi, Hl. rewrite Hi, Hl, <- !app_assoc. eauto.
    + simpl. eexists [], [_]. rewrite app_nil_r. split; reflexivity.
    + simpl. eexists [], [_]. rewrite app_nil_r. split; reflexivity.
Qed.

(** With more fuel the loop goes through the same calls and issues first. *)
Lemma while_prefix n k : forall c,
  exists moreIssues moreCalls,
    (while client queryText (n + k) c).(final).(issues)
    = (while client queryText n c).(final).(issues) ++ moreIssues
    /\ (while client queryText (n + k) c).(final).(log)
       = (while client queryText n c).(final).(log) ++ moreCalls.
Proof.
  induction n as [|n IH]; intros c.
  - replace (final (while client queryText 0 c)) with c
      by (destruct c as [cur [|] acc w lg]; reflexivity).
    apply while_extends.
  - destruct c as [cur more acc w lg].
    destruct more; simpl;
      [|exists [], []; rewrite !app_nil_r; split; reflexivity].
    destruct (graphql client query _ w) as [[[results|]|reason|] w'];
      try apply IH;
      exists [], []; rewrite !app_nil_r; split; reflexivity.
Qed.

End Shape.

(** ** How invocations end *)

Lemma getMatchingIssues_entering {Error World : Type}
      (getOctokit : string -> GitHubClient Error World) context fuel w
      token searchQuery :
  getMatchingIssues getOctokit context fuel w token searchQuery
  = while (getOctokit token) (queryTextOf context searchQuery) fuel
      (entering None true [] w).
Proof. reflexivity. Qed.

Lemma calls_answers {Error World : Type} (r : Run Error World) :
  calls r = length (map (@settlement Error) r.(final).(log)).
Proof. unfold calls. rewrite length_map. reflexivity. Qed.

(** X1: an invocation that returns has made at least one remote call; its
    last call was answered null or with a page whose hasNextPage is false,
    and every call before it with a page whose hasNextPage is true. *)
Theorem returned_after_terminal {Error World : Type}
        (getOctokit : string -> GitHubClient Error World) context fuel w
        token searchQuery result :
  let r := getMatchingIssues getOctokit context fuel w token searchQuery in
  r.(completion) = Returned result ->
  exists pages last,
    map (@settlement Error) r.(final).(log)
    = map (@page Error) pages ++ [Fulfilled last]
    /\ Forall (fun p =>
                 p.(search).(Search.pageInfo).(PageInfo.hasNextPage) = true)
              pages
    /\ terminal last = true
    /\ calls r = S (length pages).
Proof.
  cbv zeta. rewrite calls_answers, getMatchingIssues_entering.
  destruct (while_shape (getOctokit token) (queryTextOf context searchQuery)
              fuel None [] w)
    as [(pages & _ & _ & _ & Hdone & _)
       |(pages & a & Hlog & Hall & Ha & _ & Hdone & _)];
    cbv zeta in *; rewrite Hdone; [discriminate|].
  destruct a as [last| |]; try discriminate. intros _.
  exists pages, last. rewrite Hlog, length_app, length_map. simpl.
  repeat split; [exact Hall| |lia].
  destruct last as [p|]; [|reflexivity].
  simpl in *. rewrite Ha. reflexivity.
Qed.

Lemma returned_after_terminal_witness :
  exists pages last,
    map (@settlement string) scenario.(final).(log)
    = map (@page string) pages ++ [Fulfilled last]
    /\ Forall (fun p =>
                 p.(search).(Search.pageInfo).(PageInfo.hasNextPage) = true)
              pages
    /\ terminal last = true
    /\ calls scenario = S (length pages).
Proof.
  apply (@returned_after_terminal string _ (fun _ => scripted) orgRepo 5
           [page page1; page page2] "token" "" [issueA; issueB]).
  reflexivity.
Defined.

(** X3: an invocation makes at most one remote call per iteration, and at
    most one of its calls brings no page: the number of calls lies between
    the number of pages received and that number plus one. *)
Theorem calls_bounded {Error World : Type}
        (getOctokit : string -> GitHubClient Error World) context fuel w
        token searchQuery :
  let r := getMatchingIssues getOctokit context fuel w token searchQuery in
  calls r <= fuel
  /\ length (received r) <= calls r
  /\ calls r <= S (length (received r)).
Proof.
  cbv zeta. unfold received. rewrite calls_answers, getMatchingIssues_entering.
  destruct (while_shape (getOctokit token) (queryTextOf context searchQuery)
              fuel None [] w)
    as [(pages & Hlog & _ & Hlen & _)
       |(pages & a & Hlog & _ & _ & Hlen & _)];
    cbv zeta in *; rewrite Hlog.
  - rewrite pagesOf_pages, length_map. lia.
  - rewrite pagesOf_app, pagesOf_pages, !length_app, length_map.
    destruct a as [[p|]|e|]; simpl; lia.
Qed.

(** X4: the loop has no bound of its own on the number of pages.  Against
    a service that answers every call with a page whose hasNextPage is
    true, an invocation is still iterating after any number of iterations,
    having made one call in each. *)
Theorem pagination_unbounded {Error World : Type}
        (getOctokit : string -> GitHubClient Error World) context w
        token searchQuery :
  (forall variables v, exists p v',
      (getOctokit token).(graphql) query variables v = (Fulfilled (Some p), v')
      /\ p.(search).(Search.pageInfo).(PageInfo.hasNextPage) = true) ->
  forall fuel,
    let r := getMatchingIssues getOctokit context fuel w token searchQuery in
    r.(completion) = Iterating /\ calls r = fuel /\ length (received r) = fuel.
Proof.
  intros Hmore fuel. cbv zeta. rewrite getMatchingIssues_entering.
  generalize (@None string), (@nil Issue), w.
  induction fuel as [|fuel IH]; intros cur acc v; [repeat split|].
  rewrite while_iteration.
  destruct (Hmore (requestFor (queryTextOf context searchQuery) cur) v)
    as (p & v' & Hcall & Hp).
  rewrite Hcall. unfold moreAfter. rewrite Hp.
  destruct (IH (Some p.(search).(Search.pageInfo).(PageInfo.endCursor))
               (acc ++ p.(search).(Search.nodes)) v') as (Hdone & Hcalls & Hrec).
  unfold calls, received in *.
  cbn [relog final log withLog completion map app settlement pagesOf length].
  rewrite Hdone, Hcalls, Hrec. repeat split.
Qed.

Lemma pagination_unbounded_witness :
  let r := getMatchingIssues (fun _ => @stuck string page1) orgRepo 7 tt
             "token" "" in
  r.(completion) = Iterating /\ calls r = 7 /\ length (received r) = 7.
Proof.
  apply (@pagination_unbounded string _ (fun _ => stuck page1) orgRepo tt
           "token" "").
  intros variables v. exists page1, v. split; reflexivity.
Defined.

(** X5: once an invocation has completed (returned, thrown, or suspended
    for good) within n iterations, allowing it more iterations changes
    nothing: the completion, the calls and the service state are the
    same. *)
Theorem completion_stable {Error World : Type}
        (getOctokit : string -> GitHubClient Error World) context w
        token searchQuery n m :
  (getMatchingIssues getOctokit context n w token searchQuery).(completion)
  <> Iterating ->
  n <= m ->
  getMatchingIssues getOctokit context m w token searchQuery
  = getMatchingIssues getOctokit context n w token searchQuery.
Proof.
  intros Hdone Hle. unfold getMatchingIssues in *.
  apply while_stable; assumption.
Qed.

Lemma completion_stable_witness :
  search_script orgRepo 9 [@page string page1; page page2] "token" ""
  = search_script orgRepo 2 [page page1; page page2] "token" "".
Proof.
  apply (@completion_stable string _ (fun _ => scripted) orgRepo
           [page page1; page page2] "token" "" 2 9).
  - discriminate.
  - lia.
Defined.

(** X6: what an invocation has accumulated and the calls it has made after
    n iterations stay in place when it runs on: after n + k iterations the
    accumulator and the call log start with those of n iterations. *)
Theorem accumulation_monotone {Error World : Type}
        (getOctokit : string -> GitHubClient Error World) context w
        token searchQuery n k :
  let short := getMatchingIssues getOctokit context n w token searchQuery in
  let long :=
    getMatchingIssues getOctokit context (n + k) w token searchQuery in
  exists moreIssues moreCalls,
    long.(final).(issues) = short.(final).(issues) ++ moreIssues
    /\ long.(final).(log) = short.(final).(log) ++ moreCalls.
Proof. cbv zeta. unfold getMatchingIssues. apply while_prefix. Qed.

(** X7: an invocation depends on the remote service through the succession
    of its answers only.  Replaying the answers any client gave from a
    script yields the same completion, the same calls and the same
    accumulator, and leaves the rest of the script unread. *)
Theorem answers_determine_run {Error World : Type}
        (getOctokit : string -> GitHubClient Error World) context fuel w
        token searchQuery (rest : list (Settlement Error)) :
  let r := getMatchingIssues getOctokit context fuel w token searchQuery in
  let s := search_script context fuel
             (map (@settlement Error) r.(final).(log) ++ rest)
             token searchQuery in
  s.(completion) = r.(completion)
  /\ s.(final).(log) = r.(final).(log)
  /\ s.(final).(issues) = r.(final).(issues)
  /\ s.(final).(world) = rest.
Proof.
  cbv zeta. rewrite search_script_while, getMatchingIssues_entering.
  apply (scripted_replays (getOctokit token) (queryTextOf context searchQuery)
           rest fuel None true [] w).
Qed.

(** ** The texts built from the repository and the predicate *)

Lemma length_append (a b : string) :
  String.length (a ++ b) = String.length a + String.length b.
Proof. induction a as [|x a IH]; simpl; [|rewrite IH]; reflexivity. Qed.

Lemma substring_whole (b : string) : substring 0 (String.length b) b = b.
Proof. induction b as [|x b IH]; simpl; [|rewrite IH]; reflexivity. Qed.

Lemma substring_append (a b : string) :
  substring (String.length a) (String.length b) (a ++ b) = b.
Proof.
  induction a as [|x a IH]; simpl; [apply substring_whole|exact IH].
Qed.

Lemma slash_splits (o1 : string) : forall o2 r1 r2,
  mentions "/" o1 = false ->
  mentions "/" o2 = false ->
  (o1 ++ "/" ++ r1 = o2 ++ "/" ++ r2)%string ->
  o1 = o2 /\ r1 = r2.
Proof.
  induction o1 as [|x o1 IH]; intros [|y o2] r1 r2 H1 H2 Heq; simpl in *.
  - injection Heq as ->. split; reflexivity.
  - injection Heq as <- _. simpl in H2. discriminate.
  - injection Heq as -> _. simpl in H1. discriminate.
  - injection Heq as -> Heq.
    destruct (Ascii.eqb y "/"); [discriminate|].
    destruct (IH o2 r1 r2 H1 H2 Heq) as [-> ->]. split; reflexivity.
Qed.

(** No escaping is applied: an owner that contains a slash makes the text
    ambiguous. *)
Example formatNameWithOwner_ambiguous :
  formatNameWithOwner {| owner := "a/b"; repo := "c" |}
  = formatNameWithOwner {| owner := "a"; repo := "b/c" |}.
Proof. reflexivity. Qed.

(** X8: for owners without a slash, [formatNameWithOwner] keeps
    repositories apart: two names with the same text have the same owner
    and the same repo. *)
Theorem formatNameWithOwner_injective (a b : NameWithOwner) :
  mentions "/" a.(owner) = false ->
  mentions "/" b.(owner) = false ->
  formatNameWithOwner a = formatNameWithOwner b ->
  a = b.
Proof.
  destruct a as [o1 r1], b as [o2 r2]. unfold formatNameWithOwner. simpl.
  intros H1 H2 Heq.
  destruct (slash_splits o1 o2 r1 r2 H1 H2 Heq) as [-> ->]. reflexivity.
Qed.

Lemma formatNameWithOwner_injective_witness :
  {| owner := "acme"; repo := "widgets" |}
  = {| owner := "ac" ++ "me"; repo := "wid" ++ "gets" |}.
Proof.
  apply (formatNameWithOwner_injective
           {| owner := "acme"; repo := "widgets" |}
           {| owner := "ac" ++ "me"; repo := "wid" ++ "gets" |});
    reflexivity.
Defined.

(** X9: the predicate goes into the query text verbatim, after a prefix
    that depends on the repository only: the query text is 7 characters
    longer than owner, repo and predicate together, and the predicate is
    read back from it by dropping that prefix. *)
Theorem predicate_verbatim (context : Context.t) (searchQuery : string) :
  let prefix :=
    ("repo:" ++ formatNameWithOwner context.(Context.repo) ++ " ")%string in
  String.length (queryTextOf context searchQuery)
  = 7 + String.length context.(Context.repo).(owner)
      + String.length context.(Context.repo).(repo)
      + String.length searchQuery
  /\ substring (String.length prefix) (String.length searchQuery)
               (queryTextOf context searchQuery)
     = searchQuery.
Proof.
  cbv zeta.
  assert (Hsplit : queryTextOf context searchQuery
                   = (("repo:" ++ formatNameWithOwner context.(Context.repo)
                         ++ " ") ++ searchQuery)%string).
  { unfold queryTextOf. rewrite !append_assoc. reflexivity. }
  split.
  - unfold queryTextOf, formatNameWithOwner.
    rewrite !length_append. simpl. lia.
  - rewrite Hsplit. apply substring_append.
Qed.

(** ** The diagnostic output *)

(** The traced loop runs as the loop does, and appends to the sink the
    events of the calls it adds to the log. *)
Lemma while_traced_spec {Error World : Type}
      (stringify : GraphQlQueryResponseData -> string)
      (client : GitHubClient Error World) queryText fuel :
  forall c events,
    fst (while_traced stringify client queryText fuel c events)
    = while client queryText fuel c
    /\ exists newCalls,
         (while client queryText fuel c).(final).(log) = c.(log) ++ newCalls
         /\ snd (while_traced stringify client queryText fuel c events)
            = events ++ flat_map (eventsOf stringify) newCalls.
Proof.
  induction fuel as [|fuel IH]; intros [cur more acc w lg] events.
  - split; [destruct more; reflexivity|].
    exists []. destruct more; simpl; rewrite !app_nil_r; split; reflexivity.
  - destruct more; simpl;
      [|split; [reflexivity|];
        exists []; rewrite !app_nil_r; split; reflexivity].
    destruct (graphql client query _ w) as [[[results|]|reason|] w'].
    + match goal with
      | |- fst (while_traced _ _ _ _ ?c ?ev) = _ /\ _ =>
          destruct (IH c ev) as (Hrun & calls' & Hlog & Hev)
      end.
      split; [exact Hrun|].
      eexists (_ :: calls'). rewrite Hlog, Hev. simpl.
      rewrite <- !app_assoc. split; reflexivity.
    + match goal with
      | |- fst (while_traced _ _ _ _ ?c ?ev) = _ /\ _ =>
          destruct (IH c ev) as (Hrun & calls' & Hlog & Hev)
      end.
      split; [exact Hrun|].
      eexists (_ :: calls'). rewrite Hlog, Hev. simpl.
      rewrite <- !app_assoc. split; reflexivity.
    + split; [reflexivity|]. eexists [_]. simpl. split; reflexivity.
    + split; [reflexivity|]. eexists [_]. simpl. split; reflexivity.
Qed.

(** X10: the [core.debug] lines take no part in the computation: the
    invocation with its diagnostic output completes exactly as the
    invocation without, with the same calls and the same service state. *)
Theorem diagnostics_are_inert {Error World : Type}
        (stringify : GraphQlQueryResponseData -> string)
        (getOctokit : string -> GitHubClient Error World) context fuel w
        token searchQuery :
  fst (getMatchingIssues_traced stringify getOctokit context fuel w token
         searchQuery)
  = getMatchingIssues getOctokit context fuel w token searchQuery.
Proof.
  unfold getMatchingIssues_traced, getMatchingIssues.
  apply while_traced_spec.
Qed.

(** X11: the events of an invocation are the [Query:] line with the query
    text, before any remote call, and then for each call in turn the call
    followed by the [Results:] line of its response; a call that is
    rejected or never settles leaves no line. *)
Theorem diagnostics_follow_calls {Error World : Type}
        (stringify : GraphQlQueryResponseData -> string)
        (getOctokit : string -> GitHubClient Error World) context fuel w
        token searchQuery :
  snd (getMatchingIssues_traced stringify getOctokit context fuel w token
         searchQuery)
  = Debugged ("Query: " ++ queryTextOf context searchQuery)%string
      :: flat_map (eventsOf stringify)
           (getMatchingIssues getOctokit context fuel w token
              searchQuery).(final).(log).
Proof.
  unfold getMatchingIssues_traced, getMatchingIssues. cbv zeta.
  match goal with
  | |- snd (while_traced _ _ _ _ ?c ?ev) = _ =>
      destruct (while_traced_spec stringify (getOctokit token)
                  (queryTextOf context searchQuery) fuel c ev)
        as (_ & newCalls & Hlog & Hev)
  end.
  simpl in Hlog. rewrite Hev, Hlog. reflexivity.
Qed.

Example diagnostics_scenario :
  snd (getMatchingIssues_traced (fun _ => "{..}") (fun _ => scripted) orgRepo
         5 [@page string page1; Rejected "Bad credentials"] "token" "")
  = [Debugged "Query: repo:org/repo ";
     Called {| document := query; request := requestFor "repo:org/repo " None;
               settlement := page page1 |};
     Debugged "Results: {..}";
     Called {| document := query;
               request := requestFor "repo:org/repo " (Some "c1");
               settlement := Rejected "Bad credentials" |}].
Proof. reflexivity. Qed.

(** ** What is returned, whatever the service *)

(** X12: against any client, what an invocation returns is the issue lists
    of the pages it received, one after the other in the order of arrival,
    each in the order received. *)
Theorem returns_received_in_order {Error World : Type}
        (getOctokit : string -> GitHubClient Error World) context fuel w
        token searchQuery result :
  let r := getMatchingIssues getOctokit context fuel w token searchQuery in
  r.(completion) = Returned result ->
  result = concat (map (fun p => p.(search).(Search.nodes)) (received r)).
Proof.
  cbv zeta. intros Hret.
  destruct (getMatchingIssues_returns _ _ _ _ _ _ Hret) as [-> _].
  reflexivity.
Qed.

Lemma returns_received_in_order_witness :
  [issueA; issueB]
  = concat (map (fun p => p.(search).(Search.nodes))
                (received
                   (getMatchingIssues (fun _ => @scripted string) orgRepo 5
                      [page page1; page page2] "token" ""))).
Proof.
  apply (@returns_received_in_order string _ (fun _ => scripted) orgRepo 5
           [page page1; page page2] "token" "" [issueA; issueB]).
  reflexivity.
Defined.

(** X13: every remote call of an invocation sends the same query template
    and the same query text, built once from the repository and the
    predicate; between calls only the cursor changes. *)
Theorem requests_uniform {Error World : Type}
        (getOctokit : string -> GitHubClient Error World) context fuel w
        token searchQuery :
  Forall (fun x : Exchange Error =>
            x.(document) = query
            /\ x.(request).(RequestParameters.searchQuery)
               = ("repo:" ++ context.(Context.repo).(owner) ++ "/"
                    ++ context.(Context.repo).(repo) ++ " "
                    ++ searchQuery)%string)
         (getMatchingIssues getOctokit context fuel w token
            searchQuery).(final).(log).
Proof.
  rewrite getMatchingIssues_entering.
  pose proof (while_transcript (getOctokit token)
                (queryTextOf context searchQuery) fuel None true [] w) as Hlog.
  cbv zeta in Hlog. rewrite Hlog.
  eapply Forall_impl; [|apply transcript_requests].
  intros x [Hdoc Htext]. split; [exact Hdoc|].
  rewrite Htext. unfold queryTextOf, formatNameWithOwner.
  rewrite !append_assoc. reflexivity.
Qed.
